(** * Uniform ellipsoid sampler: a shallow embedding of
      [uniform_ellipsoid_sampler.py] and the properties of its three
      entry points, [__init__], [f] and [sample].

    Modelling decisions, all visible in the definitions below.

    - Tensor elements are values of a type [F] with the arithmetic of the
      class [Scalar]: the program is written once for every element
      arithmetic.  Structural results (shapes, which formula is computed,
      which calls fail) are proved for an arbitrary [Scalar]; results that
      need the laws of a field are proved for the exact rationals [Qc].
      Rounding and the IEEE special values are not part of the [Qc]
      instance, so every statement that divides is stated away from zero
      divisors, and the concrete runs use dyadic values on which binary
      floating point is exact.  The single-precision arithmetic of
      [torch.float32] is the instance [Binary32], on the IEEE 754
      operations of [SpecFloat]; it shows where the exact results stop
      holding for floating-point tensors.
    - A tensor carries its rank: [T0], [Vec], [Mat] for ranks 0, 1, 2 and
      [Hi] for rank 3 and above.  Arithmetic broadcasts as torch does on
      ranks up to 2; arithmetic with a non-scalar operand of rank 3 or more
      answers [Unmodelled], which neither [f] nor [sample] reaches on a
      sampler built by [__init__], since every rank is asserted first.
    - [torch.randn] and [torch.rand] read a generator state that is
      threaded through [sample]; Python exceptions are the [Err] results.
    - [.cuda()] moves a tensor to another device and leaves its entries
      unchanged: it is the identity on values. *)

From Stdlib Require Import String.
From Stdlib Require Import List Bool Arith NArith ZArith Lia QArith Qcanon.
From Stdlib Require Import SpecFloat.
Import ListNotations.

Close Scope Qc_scope.
Close Scope Q_scope.
Open Scope nat_scope.

(** * The program *)

(** ** Python exceptions *)

Inductive error : Type :=
| AssertionError (msg : string)  (* a failed [assert], with its message *)
| RuntimeError                   (* torch: shapes that do not broadcast, or a
                                    [view] whose size does not fit *)
| TypeError                      (* [len()] of a 0-d tensor *)
| Unmodelled.                    (* arithmetic on rank 3 and above *)

Inductive result (A : Type) : Type :=
| Ok (a : A)
| Err (e : error).

Arguments Ok {A} a.
Arguments Err {A} e.

Definition rbind {A B} (r : result A) (k : A -> result B) : result B :=
  match r with
  | Ok a => k a
  | Err e => Err e
  end.

Definition assert (b : bool) (msg : string) : result unit :=
  if b then Ok tt else Err (AssertionError msg).

Declare Scope result_scope.
Delimit Scope result_scope with result.
Notation "x <- r ;; k" := (rbind r (fun x => k))
  (at level 61, r at next level, right associativity) : result_scope.
Notation "r ;;; k" := (rbind r (fun _ => k))
  (at level 61, right associativity) : result_scope.

(** ** Element arithmetic *)

(** The Python numbers [0] and [1] and the operators [+], [-], [*], [/]
    and [<=] on tensor elements. *)
Class Scalar (F : Type) : Type := {
  fzero : F;
  fone : F;
  fadd : F -> F -> F;
  fsub : F -> F -> F;
  fmul : F -> F -> F;
  fdiv : F -> F -> F;
  fleb : F -> F -> bool
}.

(** ** Tensors *)

Module Torch.

Inductive tensor (A : Type) : Type :=
| T0 (x : A)                              (* shape ()                 *)
| Vec (v : list A)                        (* shape (len v,)           *)
| Mat (n : nat) (rows : list (list A))    (* shape (len rows, n)      *)
| Hi (d1 d2 d3 : nat) (ds : list nat) (data : list A).
                                          (* shape (d1, d2, d3, *ds)  *)

Arguments T0 {A} x.
Arguments Vec {A} v.
Arguments Mat {A} n rows.
Arguments Hi {A} d1 d2 d3 ds data.

Definition shape {A} (t : tensor A) : list nat :=
  match t with
  | T0 _ => []
  | Vec v => [length v]
  | Mat n rows => [length rows; n]
  | Hi d1 d2 d3 ds _ => d1 :: d2 :: d3 :: ds
  end.

(** [s1 == s2] on shapes *)
Fixpoint shape_eqb (s1 s2 : list nat) : bool :=
  match s1, s2 with
  | [], [] => true
  | d1 :: s1', d2 :: s2' => (d1 =? d2) && shape_eqb s1' s2'
  | _, _ => false
  end.

(** [len(t.shape)] *)
Definition rank {A} (t : tensor A) : nat := length (shape t).

(** A matrix is rectangular: every row has [n] entries. *)
Definition rect {A} (n : nat) (rows : list (list A)) : Prop :=
  Forall (fun r => length r = n) rows.

(** The entries in storage order. *)
Definition flat {A} (t : tensor A) : list A :=
  match t with
  | T0 x => [x]
  | Vec v => v
  | Mat _ rows => concat rows
  | Hi _ _ _ _ data => data
  end.

Definition tmap {A B} (g : A -> B) (t : tensor A) : tensor B :=
  match t with
  | T0 x => T0 (g x)
  | Vec v => Vec (map g v)
  | Mat n rows => Mat n (map (map g) rows)
  | Hi d1 d2 d3 ds data => Hi d1 d2 d3 ds (map g data)
  end.

Fixpoint map2 {A B C} (g : A -> B -> C) (l1 : list A) (l2 : list B) : list C :=
  match l1, l2 with
  | x :: l1', y :: l2' => g x y :: map2 g l1' l2'
  | _, _ => []
  end.

(** Broadcasting of one dimension: equal sizes, or one of them is 1. *)
Definition bcast_dim (n m : nat) : result nat :=
  if n =? m then Ok n
  else if n =? 1 then Ok m
  else if m =? 1 then Ok n
  else Err RuntimeError.

(** A dimension of size 1 is repeated to size [k]; a dimension that has
    size [k] already is left alone. *)
Definition expand {A} (k : nat) (l : list A) : list A :=
  match l with
  | [x] => repeat x k
  | _ => l
  end.

(** [len(t)]: the first dimension. *)
Definition len {A} (t : tensor A) : result nat :=
  match shape t with
  | [] => Err TypeError
  | d :: _ => Ok d
  end.

(** [t.view((k, 1))] *)
Definition view_col {A} (t : tensor A) (k : nat) : result (tensor A) :=
  if length (flat t) =? k
  then Ok (Mat 1 (map (fun x => [x]) (flat t)))
  else Err RuntimeError.

(** [.cuda()] *)
Definition cuda {A} (t : tensor A) : tensor A := t.

Section Arith.

Context {F : Type} `{Scalar F}.

(** A broadcasting binary operator, as [a / b], [a * b], [a + b]. *)
Definition binop (op : F -> F -> F) (a b : tensor F) : result (tensor F) :=
  match a, b with
  | T0 x, _ => Ok (tmap (op x) b)
  | _, T0 y => Ok (tmap (fun x => op x y) a)
  | Vec v, Vec w =>
      (k <- bcast_dim (length v) (length w) ;;
       Ok (Vec (map2 op (expand k v) (expand k w))))%result
  | Mat n rows, Vec w =>
      (k <- bcast_dim n (length w) ;;
       Ok (Mat k (map (fun r => map2 op (expand k r) (expand k w)) rows)))%result
  | Vec v, Mat m rows =>
      (k <- bcast_dim (length v) m ;;
       Ok (Mat k (map (fun r => map2 op (expand k v) (expand k r)) rows)))%result
  | Mat n rows1, Mat m rows2 =>
      (b <- bcast_dim (length rows1) (length rows2) ;;
       k <- bcast_dim n m ;;
       Ok (Mat k (map2 (fun r1 r2 => map2 op (expand k r1) (expand k r2))
                       (expand b rows1) (expand b rows2))))%result
  | Hi _ _ _ _ _, _ => Err Unmodelled
  | _, Hi _ _ _ _ _ => Err Unmodelled
  end.

Definition tdiv := binop fdiv.
Definition tmul := binop fmul.
Definition tadd := binop fadd.

(** [torch.pow(t, 2)] and [t**2] *)
Definition pow2 (t : tensor F) : tensor F := tmap (fun x => fmul x x) t.

(** The sum of a list of entries, from [fzero], left to right. *)
Definition lsum (l : list F) : F := fold_left fadd l fzero.

(** [torch.sum(t, dim=-1)] *)
Definition sum_last (t : tensor F) : result (tensor F) :=
  match t with
  | T0 x => Ok (T0 x)
  | Vec v => Ok (T0 (lsum v))
  | Mat _ rows => Ok (Vec (map lsum rows))
  | Hi _ _ _ _ _ => Err Unmodelled
  end.

(** [t - c] and [t <= c] for a Python number [c] *)
Definition sub_scalar (t : tensor F) (c : F) : tensor F :=
  tmap (fun x => fsub x c) t.

Definition le_scalar (t : tensor F) (c : F) : tensor bool :=
  tmap (fun x => fleb x c) t.

End Arith.

End Torch.

Import Torch.

(** ** The sampler *)

Section Sampler.

Context {F : Type} `{Scalar F}.

Record EllipsoidSampler : Type := {
  use_cuda : bool;
  mu : tensor F;
  axes : tensor F;
  dims : nat
}.

(** [__init__(self, mu, axes, use_cuda=True)] *)
Definition __init__ (mu0 axes0 : tensor F) (use_cuda0 : bool)
  : result EllipsoidSampler :=
  (assert ((rank mu0 =? rank axes0) && (rank axes0 =? 1)) "" ;;;
   assert (shape_eqb (shape mu0) (shape axes0)) "" ;;;
   Ok {| use_cuda := use_cuda0;
         mu := if use_cuda0 then cuda mu0 else mu0;
         axes := if use_cuda0 then cuda axes0 else axes0;
         dims := hd 0 (shape mu0) |})%result.

(** [f(self, x)] *)
Definition f (self : EllipsoidSampler) (x : tensor F) : result (tensor F) :=
  (assert (rank x =? 2) "Not implemented for shape != 2D" ;;;
   let x := if use_cuda self then cuda x else x in
   let Xsq := pow2 x in
   let Asq := pow2 (axes self) in
   div <- tdiv Xsq Asq ;;
   s <- sum_last div ;;
   let eq := sub_scalar s fone in
   Ok eq)%result.

End Sampler.

Arguments EllipsoidSampler F : clear implicits.

(** ** The random source *)

(** [torch.randn] and [torch.rand] read and advance a generator state [G]:
    one standard-normal draw, one uniform draw.  The contract of
    [torch.rand] is part of the interface: a uniform draw [u] satisfies
    [0 <= u] and not [1 <= u]. *)
Class Generator (F G : Type) `{Scalar F} : Type := {
  next_normal : G -> F * G;
  next_uniform : G -> F * G;
  next_uniform_range : forall g,
    fleb fzero (fst (next_uniform g)) = true /\
    fleb fone (fst (next_uniform g)) = false
}.

Arguments Generator F G {_}.

(** Computations that may raise and that advance the generator. *)
Definition M (G A : Type) : Type := G -> result A * G.

Definition mret {G A} (a : A) : M G A := fun g => (Ok a, g).

Definition mbind {G A B} (m : M G A) (k : A -> M G B) : M G B :=
  fun g =>
    match m g with
    | (Ok a, g') => k a g'
    | (Err e, g') => (Err e, g')
    end.

Definition lift {G A} (r : result A) : M G A := fun g => (r, g).

Declare Scope M_scope.
Delimit Scope M_scope with M.
Notation "x <- m ;; k" := (mbind m (fun x => k))
  (at level 61, m at next level, right associativity) : M_scope.
Notation "m ;;; k" := (mbind m (fun _ => k))
  (at level 61, right associativity) : M_scope.

Section Sampling.

Context {F G : Type} `{Generator F G}.

(** [k] successive standard-normal draws. *)
Fixpoint draws (k : nat) (g : G) : list F * G :=
  match k with
  | 0 => ([], g)
  | S k' =>
      let (x, g1) := next_normal g in
      let (xs, g2) := draws k' g1 in
      (x :: xs, g2)
  end.

(** The rows of [torch.randn((b, n))]: the storage is filled in order, row
    after row. *)
Fixpoint randn_rows (b n : nat) (g : G) : list (list F) * G :=
  match b with
  | 0 => ([], g)
  | S b' =>
      let (r, g1) := draws n g in
      let (rs, g2) := randn_rows b' n g1 in
      (r :: rs, g2)
  end.

(** [torch.randn((b, n))] *)
Definition randn (b n : nat) : M G (tensor F) :=
  fun g => let (rows, g') := randn_rows b n g in (Ok (Mat n rows), g').

(** [torch.rand((1,))] *)
Definition rand1 : M G (tensor F) :=
  fun g => let (u, g') := next_uniform g in (Ok (Vec [u]), g').

(** Step 1 of [sample]: the value of the variable [z_on_unit_sphere]. *)
Definition z_on_unit_sphere (self : EllipsoidSampler F) (num_points : nat)
  : M G (tensor F) :=
  (z <- randn num_points (dims self) ;;
   let z := if use_cuda self then cuda z else z in
   lift (s <- sum_last (pow2 z) ;;
         v <- view_col s num_points ;;
         tdiv z v)%result)%M.

(** [sample(self, num_points)] *)
Definition sample (self : EllipsoidSampler F) (num_points : nat)
  : M G (tensor F) :=
  (z_on_unit_sphere <- z_on_unit_sphere self num_points ;;
   scale <- rand1 ;;
   let scale := if use_cuda self then cuda scale else scale in
   z_scaled <- lift (tmul z_on_unit_sphere scale) ;;
   z_ellipsoidal <- lift (tmul z_scaled (axes self)) ;;
   z_shifted <- lift (tadd z_ellipsoidal (mu self)) ;;
   fx <- lift (f self z_shifted) ;;
   let idx := le_scalar fx fzero in
   n <- lift (len idx) ;;
   lift (assert (n =? num_points)
     "Couldn't sample enough points from within the ellipsoid. Check the algorithm") ;;;
   mret z_shifted)%M.

End Sampling.

(** ** Row-level readings of the tensor code *)

Section Rows.

Context {F : Type} `{Scalar F}.

Definition sq (x : F) : F := fmul x x.

(** The sum of the squared entries of a row. *)
Definition sumsq (r : list F) : F := lsum (map sq r).

(** The value [f] computes for one row [r] against the axes [a]. *)
Definition quadratic_form (a r : list F) : F :=
  fsub (lsum (map2 fdiv (map sq r) (map sq a))) fone.

(** The direction of a drawn row: every entry over the sum of squares. *)
Definition direction (r : list F) : list F :=
  map (fun x => fdiv x (sumsq r)) r.

(** One returned point: the direction [d], times the scale [u], times the
    axes [a], plus the centre [m]. *)
Definition place (m a : list F) (u : F) (d : list F) : list F :=
  map2 fadd (map2 fmul (map (fun x => fmul x u) d) a) m.

(** The implicit value of a row as the specification words it, in the
    element arithmetic [F]: the sum over the coordinates of [(x / axis)]
    squared, minus 1. *)
Definition implicit_value_in (a r : list F) : F :=
  fsub (lsum (map2 (fun x ai => fmul (fdiv x ai) (fdiv x ai)) r a)) fone.

End Rows.

(** ** Exact rational arithmetic *)

#[export] Instance Qc_Scalar : Scalar Qc := {|
  fzero := Q2Qc 0;
  fone := Q2Qc 1;
  fadd := Qcplus;
  fsub := Qcminus;
  fmul := Qcmult;
  fdiv := Qcdiv;
  fleb := fun x y => Qle_bool (this x) (this y)
|}.

Definition frac (n : Z) (d : positive) : Qc := Q2Qc (n # d).

(** A scripted random source: the standard-normal draws are read off a
    list, and a uniform draw is a 24-bit integer [k] standing for
    [k / 2^24], as [torch.rand] builds a single-precision value. *)
Record script : Type := {
  normals : list Qc;
  uniforms : list N
}.

Definition two24 : positive := 16777216.

Definition unit_of (k : N) : Qc :=
  frac (Z.of_N (N.modulo k (Npos two24))) two24.

Definition script_normal (g : script) : Qc * script :=
  (hd (Q2Qc 0) (normals g),
   {| normals := tl (normals g); uniforms := uniforms g |}).

Definition script_uniform (g : script) : Qc * script :=
  (unit_of (hd 0%N (uniforms g)),
   {| normals := normals g; uniforms := tl (uniforms g) |}).

#[export, refine] Instance script_Generator : Generator Qc script := {|
  next_normal := script_normal;
  next_uniform := script_uniform;
  next_uniform_range := _
|}.
Proof.
  intros g. unfold script_uniform, unit_of, frac. cbn [fst fzero fone fleb Qc_Scalar].
  set (r := Z.of_N (N.modulo (hd 0%N (uniforms g)) (Npos two24))).
  assert (Hr : (0 <= r < Zpos two24)%Z).
  { subst r. set (k := hd 0%N (uniforms g)).
    assert (Hb : (k mod N.pos two24 < N.pos two24)%N)
      by (apply N.mod_upper_bound; discriminate).
    apply N2Z.inj_lt in Hb.
    pose proof (N2Z.is_nonneg (k mod N.pos two24)) as Hn. cbn in Hb. lia. }
  split.
  - apply Qle_bool_iff. cbn [this Q2Qc]. rewrite !Qred_correct.
    unfold Qle. cbn. lia.
  - apply not_true_is_false. intro Hle. apply Qle_bool_iff in Hle.
    cbn [this Q2Qc] in Hle. rewrite !Qred_correct in Hle.
    unfold Qle in Hle. cbn in Hle. lia.
Defined.

(** The implicit value of a row as the specification words it:
    the sum over the coordinates of [(x / axis)] squared, minus 1. *)
Definition implicit_value (a r : list Qc) : Qc :=
  Qcminus (lsum (map2 (fun x ai => Qcmult (Qcdiv x ai) (Qcdiv x ai)) r a))
          (Q2Qc 1).

(** The number of rows of [pts] at which [f] is at most 0. *)
Definition inside_count (self : EllipsoidSampler Qc) (pts : tensor Qc)
  : result nat :=
  (fx <- f self pts ;;
   Ok (count_occ bool_dec (flat (le_scalar fx fzero)) true))%result.

(** ** Single-precision arithmetic *)

(** The elements of a [torch.float32] tensor: IEEE 754 binary32, with 24
    bits of precision and the exponent 128 for the infinities. *)
Module Binary32.

Definition prec : Z := 24.
Definition emax : Z := 128.

#[global] Instance binary32_Scalar : Scalar spec_float := {|
  fzero := S754_zero false;
  fone := SFone prec emax;
  fadd := SFadd prec emax;
  fsub := SFsub prec emax;
  fmul := SFmul prec emax;
  fdiv := SFdiv prec emax;
  fleb := SFleb
|}.

(** The float [2^e]. *)
Definition two_pow (e : Z) : spec_float :=
  SFldexp prec emax (SFone prec emax) e.

End Binary32.

(** ** Concrete samplers and draws *)

(** The single-precision interval with centre 0 and the axis [2^70]. *)
Definition wide_interval : EllipsoidSampler spec_float :=
  {| use_cuda := true;
     mu := Vec [S754_zero false];
     axes := Vec [Binary32.two_pow 70];
     dims := 1 |}.

(** The ellipse with centre (0, 0) and axes (2, 1). *)
Definition ellipse21 : EllipsoidSampler Qc :=
  {| use_cuda := true;
     mu := Vec [frac 0 1; frac 0 1];
     axes := Vec [frac 2 1; frac 1 1];
     dims := 2 |}.

(** The unit sphere with centre (1, 1, 1). *)
Definition sphere111 : EllipsoidSampler Qc :=
  {| use_cuda := true;
     mu := Vec [frac 1 1; frac 1 1; frac 1 1];
     axes := Vec [frac 1 1; frac 1 1; frac 1 1];
     dims := 3 |}.

(** The uniform draw 1/2. *)
Definition half : N := 8388608.

(** One drawn row (1/4, 1/4), then the scale 1/2. *)
Definition short_draw : script :=
  {| normals := [frac 1 4; frac 1 4]; uniforms := [half] |}.

(** The drawn rows (1/4, 1/4) and (1, 1), then the scale 1/2. *)
Definition mixed_draws : script :=
  {| normals := [frac 1 4; frac 1 4; frac 1 1; frac 1 1]; uniforms := [half] |}.

(** One drawn row (1, 1). *)
Definition diagonal_draw : script :=
  {| normals := [frac 1 1; frac 1 1]; uniforms := [half] |}.

(** The interval with centre 0 and the single axis 2. *)
Definition interval2 : EllipsoidSampler Qc :=
  {| use_cuda := true;
     mu := Vec [frac 0 1];
     axes := Vec [frac 2 1];
     dims := 1 |}.

(** One drawn row (1, 1), then the scale 0. *)
Definition still_draw : script :=
  {| normals := [frac 1 1; frac 1 1]; uniforms := [0%N] |}.

(** The end point of axis [i]: the axis length in coordinate [i], zero in
    every other coordinate. *)
Fixpoint endpoint (a : list Qc) (i : nat) : list Qc :=
  match a, i with
  | [], _ => []
  | ai :: a', 0 => ai :: map (fun _ => Q2Qc 0) a'
  | _ :: a', S i' => Q2Qc 0 :: endpoint a' i'
  end.

(** * Lemmas *)

(** ** Lists and broadcasting *)

Section ListFacts.

Context {A B C : Type}.

Lemma map2_length (g : A -> B -> C) (l1 : list A) (l2 : list B) :
  length (map2 g l1 l2) = Nat.min (length l1) (length l2).
Proof.
  revert l2; induction l1 as [|x l1 IH]; intros [|y l2]; simpl; auto.
Qed.

Lemma map2_map_r (g : A -> B -> C) (h : A -> B) (l : list A) :
  map2 g l (map h l) = map (fun x => g x (h x)) l.
Proof.
  induction l as [|x l IH]; simpl; [reflexivity | now rewrite IH].
Qed.

Lemma map2_repeat_r (g : A -> B -> C) (y : B) (l : list A) :
  map2 g l (repeat y (length l)) = map (fun x => g x y) l.
Proof.
  induction l as [|x l IH]; simpl; [reflexivity | now rewrite IH].
Qed.

Lemma map2_ext_Forall_r (P : B -> Prop) (g h : A -> B -> C) l1 l2 :
  Forall P l2 -> (forall x y, P y -> g x y = h x y) ->
  map2 g l1 l2 = map2 h l1 l2.
Proof.
  intros HP Hgh. revert l1. induction HP as [|y l2 Hy _ IH]; intros [|x l1];
    simpl; auto.
  now rewrite Hgh, IH.
Qed.

Lemma expand_id (k : nat) (l : list A) : length l = k -> expand k l = l.
Proof.
  destruct l as [|x [|y l]]; simpl; intros <-; reflexivity.
Qed.

Lemma map_ext_Forall (P : A -> Prop) (g h : A -> B) (l : list A) :
  Forall P l -> (forall x, P x -> g x = h x) -> map g l = map h l.
Proof.
  intros HP Hgh. induction HP as [|x l Hx _ IH]; simpl; [reflexivity|].
  now rewrite Hgh, IH.
Qed.

End ListFacts.

Lemma map2_map_map {A B A' B' C : Type}
    (g : A' -> B' -> C) (h1 : A -> A') (h2 : B -> B') l1 l2 :
  map2 g (map h1 l1) (map h2 l2) = map2 (fun x y => g (h1 x) (h2 y)) l1 l2.
Proof.
  revert l2; induction l1 as [|x l1 IH]; intros [|y l2]; simpl; auto.
  now rewrite IH.
Qed.

Lemma rect_map {A : Type} (g : list A -> list A) n rows :
  rect n rows -> (forall r, length r = n -> length (g r) = n) ->
  rect n (map g rows).
Proof.
  intros Hr Hg. unfold rect in *. rewrite Forall_map.
  eapply Forall_impl; [|exact Hr]. auto.
Qed.

Lemma shape_eqb_eq (s1 s2 : list nat) : shape_eqb s1 s2 = true <-> s1 = s2.
Proof.
  revert s2; induction s1 as [|d1 s1 IH]; intros [|d2 s2]; simpl;
    try (split; [discriminate | discriminate]); [tauto|].
  rewrite andb_true_iff, Nat.eqb_eq, IH. split.
  - now intros [-> ->].
  - now intros [= -> ->].
Qed.

Lemma bcast_dim_same (n : nat) : bcast_dim n n = Ok n.
Proof. unfold bcast_dim. now rewrite Nat.eqb_refl. Qed.

Lemma bcast_dim_one_r (n : nat) : bcast_dim n 1 = Ok n.
Proof.
  unfold bcast_dim. destruct (n =? 1) eqn:E; [|reflexivity].
  apply Nat.eqb_eq in E. now subst.
Qed.

Lemma bcast_dim_one_l (m : nat) : bcast_dim 1 m = Ok m.
Proof.
  unfold bcast_dim. destruct (1 =? m) eqn:E; [|reflexivity].
  apply Nat.eqb_eq in E. now subst.
Qed.

Lemma bcast_dim_clash (n m : nat) :
  n <> m -> n <> 1 -> m <> 1 -> bcast_dim n m = Err RuntimeError.
Proof.
  intros Hnm Hn Hm. unfold bcast_dim.
  apply Nat.eqb_neq in Hnm, Hn, Hm. now rewrite Hnm, Hn, Hm.
Qed.

(** A tensor of rank 1 is a vector, a tensor of rank 2 a matrix. *)
Lemma rank1_vec {A} (t : tensor A) : rank t = 1 -> exists v, t = Vec v.
Proof.
  destruct t as [x|v|n rows|d1 d2 d3 ds data]; unfold rank; simpl;
    try discriminate. eauto.
Qed.

Lemma rank2_mat {A} (t : tensor A) : rank t = 2 -> exists n rows, t = Mat n rows.
Proof.
  destruct t as [x|v|n rows|d1 d2 d3 ds data]; unfold rank; simpl;
    try discriminate. eauto.
Qed.

Section Broadcast.

Context {F : Type}.

(** A matrix against a vector of its row length: row by row. *)
Lemma binop_mat_vec (op : F -> F -> F) n rows w :
  rect n rows -> length w = n ->
  binop op (Mat n rows) (Vec w) = Ok (Mat n (map (fun r => map2 op r w) rows)).
Proof.
  intros Hrows Hw. unfold binop. rewrite Hw, bcast_dim_same. simpl.
  do 2 f_equal. apply map_ext_Forall with (P := fun r => length r = n); auto.
  intros r Hr. now rewrite !expand_id.
Qed.

(** A matrix against a one-entry vector: the entry meets every entry. *)
Lemma binop_mat_one (op : F -> F -> F) n rows u :
  rect n rows ->
  binop op (Mat n rows) (Vec [u]) = Ok (Mat n (map (map (fun x => op x u)) rows)).
Proof.
  intros Hrows. unfold binop. simpl length. rewrite bcast_dim_one_r. simpl.
  do 2 f_equal. apply map_ext_Forall with (P := fun r => length r = n); auto.
  intros r Hr. rewrite expand_id by assumption. subst n. apply map2_repeat_r.
Qed.

(** A matrix against a column holding one entry per row: the entry of a
    row meets every entry of that row. *)
Lemma binop_mat_col (op : F -> F -> F) (h : list F -> F) n rows :
  rect n rows ->
  binop op (Mat n rows) (Mat 1 (map (fun r => [h r]) rows)) =
  Ok (Mat n (map (fun r => map (fun x => op x (h r)) r) rows)).
Proof.
  intros Hrows. unfold binop. rewrite length_map, bcast_dim_same, bcast_dim_one_r.
  simpl. do 2 f_equal.
  rewrite !expand_id by (now rewrite ?length_map).
  rewrite map2_map_r.
  apply map_ext_Forall with (P := fun r => length r = n); auto.
  intros r Hr. rewrite expand_id by assumption. subst n. apply map2_repeat_r.
Qed.

End Broadcast.

(** ** What [__init__] and [f] compute *)

Section SamplerFacts.

Context {F : Type} `{Scalar F}.

Lemma init_vec (m a : list F) (c : bool) :
  __init__ (Vec m) (Vec a) c =
  if length m =? length a
  then Ok {| use_cuda := c; mu := Vec m; axes := Vec a; dims := length m |}
  else Err (AssertionError "").
Proof.
  unfold __init__, rank, assert. simpl. rewrite andb_true_r.
  destruct (length m =? length a); simpl; [now destruct c | reflexivity].
Qed.

Lemma init_vec_ok (m a : list F) (c : bool) (self : EllipsoidSampler F) :
  __init__ (Vec m) (Vec a) c = Ok self ->
  length m = length a /\
  self = {| use_cuda := c; mu := Vec m; axes := Vec a; dims := length m |}.
Proof.
  rewrite init_vec. destruct (length m =? length a) eqn:E; [|discriminate].
  apply Nat.eqb_eq in E. intros [= <-]. auto.
Qed.

(** Every sampler that [__init__] returns was built from two vectors of
    one length. *)
Lemma init_ok_inv (mu0 axes0 : tensor F) (c : bool) (self : EllipsoidSampler F) :
  __init__ mu0 axes0 c = Ok self ->
  exists m a, mu0 = Vec m /\ axes0 = Vec a /\ length m = length a.
Proof.
  intros Hinit. assert (Hr : rank mu0 = 1 /\ rank axes0 = 1).
  { unfold __init__, assert in Hinit.
    destruct ((rank mu0 =? rank axes0) && (rank axes0 =? 1)) eqn:E;
      [|discriminate].
    apply andb_true_iff in E as [E1 E2]. apply Nat.eqb_eq in E1, E2. lia. }
  destruct Hr as [Hm Ha].
  destruct (rank1_vec mu0 Hm) as [m ->].
  destruct (rank1_vec axes0 Ha) as [a ->].
  apply init_vec_ok in Hinit as [Hlen _]. eauto.
Qed.

(** [f] on a matrix whose rows have the length of the axes. *)
Lemma f_mat (self : EllipsoidSampler F) a n rows :
  axes self = Vec a -> rect n rows -> length a = n ->
  f self (Mat n rows) = Ok (Vec (map (quadratic_form a) rows)).
Proof.
  intros Ha Hrows Hlen. unfold f, rank, assert. simpl.
  rewrite Ha. replace (if use_cuda self then cuda (Mat n rows) else Mat n rows)
    with (Mat n rows) by now destruct (use_cuda self).
  unfold tdiv, pow2. cbn [tmap].
  rewrite binop_mat_vec.
  - simpl. now rewrite !map_map.
  - apply rect_map; auto. intros r Hr. now rewrite length_map.
  - now rewrite length_map.
Qed.

(** [f] rejects every tensor that is not of rank 2. *)
Lemma f_rank (self : EllipsoidSampler F) (x : tensor F) :
  rank x <> 2 ->
  f self x = Err (AssertionError "Not implemented for shape != 2D").
Proof.
  intros Hr. unfold f, assert. apply Nat.eqb_neq in Hr. now rewrite Hr.
Qed.

(** On a sampler that [__init__] returns, [f] stays within the modelled
    part of torch. *)
Lemma f_never_unmodelled (mu0 axes0 x : tensor F) (c : bool)
    (self : EllipsoidSampler F) :
  __init__ mu0 axes0 c = Ok self -> f self x <> Err Unmodelled.
Proof.
  intros Hinit. destruct (init_ok_inv _ _ _ _ Hinit) as (m & a & -> & -> & Hlen).
  apply init_vec_ok in Hinit as [_ ->].
  destruct (Nat.eq_dec (rank x) 2) as [Hr|Hr].
  - destruct (rank2_mat x Hr) as (k & rows & ->).
    unfold f, rank, assert. cbn.
    replace (if c then cuda (Mat k rows) else Mat k rows)
      with (Mat k rows) by now destruct c.
    unfold tdiv, pow2. cbn [tmap binop]. unfold bcast_dim.
    destruct (k =? length (map (fun x => fmul x x) a)); [discriminate|].
    destruct (k =? 1); [discriminate|].
    destruct (length (map (fun x => fmul x x) a) =? 1); discriminate.
  - rewrite f_rank by assumption. discriminate.
Qed.

End SamplerFacts.

(** ** What [sample] computes *)

Section SamplingFacts.

Context {F G : Type} `{Generator F G}.

Lemma draws_length (k : nat) (g : G) : length (fst (draws k g)) = k.
Proof.
  revert g; induction k as [|k IH]; intros g; simpl; [reflexivity|].
  destruct (next_normal g) as [x g1]. specialize (IH g1).
  destruct (draws k g1) as [xs g2]. simpl in *. now rewrite IH.
Qed.

Lemma draws_add (k1 k2 : nat) (g : G) :
  draws (k1 + k2) g =
  (fst (draws k1 g) ++ fst (draws k2 (snd (draws k1 g))),
   snd (draws k2 (snd (draws k1 g)))).
Proof.
  revert g; induction k1 as [|k1 IH]; intros g; simpl.
  - now destruct (draws k2 g).
  - destruct (next_normal g) as [x g1]. rewrite IH.
    destruct (draws k1 g1) as [xs g2]. reflexivity.
Qed.

(** [torch.randn((b, n))] has [b] rows of [n] entries, which are the next
    [b * n] standard-normal draws in order. *)
Lemma randn_rows_spec (b n : nat) (g : G) :
  length (fst (randn_rows b n g)) = b /\
  rect n (fst (randn_rows b n g)) /\
  concat (fst (randn_rows b n g)) = fst (draws (b * n) g) /\
  snd (randn_rows b n g) = snd (draws (b * n) g).
Proof.
  revert g; induction b as [|b IH]; intros g.
  - simpl. repeat split. constructor.
  - cbn [randn_rows Nat.mul]. rewrite draws_add.
    pose proof (draws_length n g) as Hlen.
    destruct (draws n g) as [r g1]. specialize (IH g1).
    destruct (randn_rows b n g1) as [rs g2]. simpl in *.
    destruct IH as (Hb & Hrect & Hcat & Hst).
    repeat split; auto.
    + constructor; auto.
    + now rewrite Hcat.
Qed.

Lemma direction_length (r : list F) : length (direction r) = length r.
Proof. unfold direction. apply length_map. Qed.

Lemma z_on_unit_sphere_eq (self : EllipsoidSampler F) (num_points : nat) (g : G) :
  z_on_unit_sphere self num_points g =
  (Ok (Mat (dims self) (map direction (fst (randn_rows num_points (dims self) g)))),
   snd (randn_rows num_points (dims self) g)).
Proof.
  destruct (randn_rows_spec num_points (dims self) g) as (Hb & Hrect & _ & _).
  unfold z_on_unit_sphere, mbind, randn, lift.
  destruct (randn_rows num_points (dims self) g) as [z g1]. simpl in Hb, Hrect |- *.
  f_equal.
  replace (if use_cuda self then cuda (Mat (dims self) z) else Mat (dims self) z)
    with (Mat (dims self) z) by now destruct (use_cuda self).
  unfold pow2, view_col, tdiv. cbn [tmap sum_last rbind flat].
  rewrite !length_map, Hb, Nat.eqb_refl, !map_map.
  exact (binop_mat_col fdiv sumsq _ _ Hrect).
Qed.

Lemma place_length (m a : list F) (u : F) (d : list F) n :
  length m = n -> length a = n -> length d = n -> length (place m a u d) = n.
Proof.
  intros Hm Ha Hd. unfold place. rewrite !map2_length, length_map. lia.
Qed.

(** On a sampler built from vectors, [sample] returns the placed
    directions and never raises. *)
Lemma sample_eq (m a : list F) (c : bool) (num_points : nat) (g : G) :
  length m = length a ->
  let self := {| use_cuda := c; mu := Vec m; axes := Vec a; dims := length m |} in
  let z := fst (randn_rows num_points (length m) g) in
  let g1 := snd (randn_rows num_points (length m) g) in
  sample self num_points g =
  (Ok (Mat (length m) (map (place m a (fst (next_uniform g1))) (map direction z))),
   snd (next_uniform g1)).
Proof.
  intros Hlen self z g1.
  destruct (randn_rows_spec num_points (length m) g) as (Hb & Hrect & _ & _).
  fold z in Hb, Hrect.
  assert (Hdirs : rect (length m) (map direction z)).
  { apply rect_map; auto. intros r Hr. now rewrite direction_length. }
  unfold sample. unfold mbind at 1. rewrite z_on_unit_sphere_eq.
  cbn [dims self]. fold z g1.
  unfold mbind at 1. unfold rand1.
  destruct (next_uniform g1) as [u g2]. cbn [fst snd].
  replace (if use_cuda self then cuda (Vec [u]) else Vec [u])
    with (Vec [u]) by now destruct c.
  unfold mbind, lift, mret, tmul, tadd. cbn [mu axes self].
  rewrite (binop_mat_one fmul _ _ u Hdirs).
  assert (H1 : rect (length m) (map (map (fun x => fmul x u)) (map direction z))).
  { apply rect_map; auto. intros r Hr. now rewrite length_map. }
  rewrite (binop_mat_vec fmul _ _ a H1 (eq_sym Hlen)).
  assert (H2 : rect (length m)
            (map (fun r => map2 fmul r a)
               (map (map (fun x => fmul x u)) (map direction z)))).
  { apply rect_map; auto. intros r Hr. rewrite map2_length. lia. }
  rewrite (binop_mat_vec fadd _ _ m H2 eq_refl).
  assert (H3 : rect (length m)
            (map (fun r => map2 fadd r m)
               (map (fun r => map2 fmul r a)
                  (map (map (fun x => fmul x u)) (map direction z))))).
  { apply rect_map; auto. intros r Hr. rewrite map2_length. lia. }
  rewrite (f_mat self a _ _ eq_refl H3 (eq_sym Hlen)).
  unfold le_scalar, len, assert. cbn [tmap shape].
  rewrite !length_map, Hb, Nat.eqb_refl.
  f_equal. do 2 f_equal. unfold place. now rewrite !map_map.
Qed.

(** The closing assertion of [sample] cannot fail: on every sampler that
    [__init__] returns, [sample] returns a matrix. *)
Lemma sample_never_raises (mu0 axes0 : tensor F) (c : bool)
    (self : EllipsoidSampler F) (num_points : nat) (g : G) :
  __init__ mu0 axes0 c = Ok self ->
  exists rows, fst (sample self num_points g) = Ok (Mat (dims self) rows).
Proof.
  intros Hinit. destruct (init_ok_inv _ _ _ _ Hinit) as (m & a & -> & -> & Hlen).
  apply init_vec_ok in Hinit as [_ ->].
  rewrite (sample_eq m a c num_points g Hlen). cbn [fst dims]. eauto.
Qed.

End SamplingFacts.

(** ** Exact arithmetic *)

Open Scope Qc_scope.

Ltac qc_eval :=
  vm_compute;
  repeat first [ reflexivity | apply Qc_is_canon; reflexivity | f_equal ].

Ltac qc_neq :=
  let E := fresh "E" in
  intro E; apply (f_equal this) in E; vm_compute in E; discriminate E.

Ltac qc_ops :=
  cbn [fzero fone fadd fsub fmul fdiv fleb Qc_Scalar] in *.

Lemma fold_plus_acc (l : list Qc) (acc : Qc) :
  fold_left Qcplus l acc = acc + fold_left Qcplus l 0.
Proof.
  revert acc; induction l as [|x l IH]; intros acc; simpl.
  - ring.
  - rewrite IH, (IH (0 + x)). ring.
Qed.

Lemma lsum_nil : lsum (@nil Qc) = 0.
Proof. reflexivity. Qed.

Lemma lsum_cons (x : Qc) (l : list Qc) : lsum (x :: l) = x + lsum l.
Proof.
  unfold lsum. qc_ops. simpl. rewrite fold_plus_acc. ring.
Qed.

Lemma lsum_map_scale {A} (g : A -> Qc) (k : Qc) (l : list A) :
  lsum (map (fun x => g x * k) l) = lsum (map g l) * k.
Proof.
  induction l as [|x l IH]; simpl.
  - rewrite lsum_nil. ring.
  - rewrite !lsum_cons, IH. ring.
Qed.

Lemma quadratic_form_implicit_value (a r : list Qc) :
  Forall (fun ai => 0 < ai) a -> quadratic_form a r = implicit_value a r.
Proof.
  intros Hpos. unfold quadratic_form, implicit_value. qc_ops.
  f_equal. f_equal. rewrite map2_map_map.
  apply map2_ext_Forall_r with (P := fun ai => 0 < ai); auto.
  intros x ai Hai. unfold sq. qc_ops.
  assert (ai <> 0) by (apply not_eq_sym; now apply Qclt_not_eq).
  now field.
Qed.

(** The squared length of a direction is the inverse of the squared length
    of the drawn row: it is 1 only for a drawn row of length 1. *)
Lemma direction_sumsq (r : list Qc) :
  sumsq r <> 0 -> sumsq (direction r) = 1 / sumsq r.
Proof.
  intros Hs. unfold direction. qc_ops. set (s := sumsq r) in *.
  unfold sumsq at 1. rewrite map_map.
  rewrite map_ext with (g := fun x => sq x * (1 / (s * s))).
  - rewrite lsum_map_scale. fold (sumsq r). fold s. now field.
  - intros x. unfold sq. qc_ops. now field.
Qed.

Lemma ellipse21_built :
  __init__ (Vec [frac 0 1; frac 0 1]) (Vec [frac 2 1; frac 1 1]) true =
  Ok ellipse21.
Proof. reflexivity. Qed.

Lemma sphere111_built :
  __init__ (Vec [frac 1 1; frac 1 1; frac 1 1])
           (Vec [frac 1 1; frac 1 1; frac 1 1]) true =
  Ok sphere111.
Proof. reflexivity. Qed.

Close Scope Qc_scope.

(** ** More on lists and on exact arithmetic *)

Lemma map2_repeat_l {A B C : Type} (g : A -> B -> C) (x : A) (l : list B) :
  map2 g (repeat x (length l)) l = map (g x) l.
Proof.
  induction l as [|y l IH]; simpl; [reflexivity | now rewrite IH].
Qed.

(** ** Exact arithmetic: order *)

Open Scope Qc_scope.

Lemma sq_nonneg (x : Qc) : 0 <= sq x.
Proof.
  unfold sq. qc_ops. destruct (Qclt_le_dec x 0) as [Hneg|Hpos].
  - replace (x * x) with ((- x) * (- x)) by ring.
    assert (Hx : 0 <= - x).
    { apply Qclt_le_weak in Hneg. apply Qcopp_le_compat in Hneg.
      now replace (- 0) with 0 in Hneg by ring. }
    replace 0 with (0 * - x) by ring. now apply Qcmult_le_compat_r.
  - replace 0 with (0 * x) by ring. now apply Qcmult_le_compat_r.
Qed.

Lemma sumsq_nonneg (r : list Qc) : 0 <= sumsq r.
Proof.
  unfold sumsq. induction r as [|x r IH]; simpl.
  - rewrite lsum_nil. apply Qcle_refl.
  - rewrite lsum_cons. replace 0 with (0 + 0) by ring.
    apply Qcplus_le_compat; [apply sq_nonneg | exact IH].
Qed.

Lemma sumsq_pos (r : list Qc) : sumsq r <> 0 -> 0 < sumsq r.
Proof.
  intros Hne. destruct (Qcle_lt_or_eq _ _ (sumsq_nonneg r)) as [Hlt|Heq]; auto.
  now contradiction Hne.
Qed.

(** For a positive [s], [v / s - 1 <= 0] exactly when [v <= s]. *)
Lemma ratio_minus_one_le (v s : Qc) :
  0 < s -> (v / s - 1 <= 0 <-> v <= s).
Proof.
  intros Hs. assert (Hne : s <> 0) by (apply not_eq_sym; now apply Qclt_not_eq).
  split; intros Hle.
  - pose proof (Qcplus_le_compat _ _ _ _ Hle (Qcle_refl 1)) as H1.
    replace (v / s - 1 + 1) with (v / s) in H1 by ring.
    replace (0 + 1) with 1 in H1 by ring.
    pose proof (Qcmult_le_compat_r _ _ s H1 (Qclt_le_weak _ _ Hs)) as H2.
    replace (v / s * s) with v in H2 by (now field).
    now replace (1 * s) with s in H2 by ring.
  - assert (H1 : v / s <= 1).
    { apply Qcmult_lt_0_le_reg_r with (z := s); [exact Hs|].
      replace (v / s * s) with v by (now field).
      now replace (1 * s) with s by ring. }
    pose proof (Qcplus_le_compat _ _ _ _ H1 (Qcle_refl (- (1)))) as H2.
    replace (v / s + - (1)) with (v / s - 1) in H2 by ring.
    now replace (1 + - (1)) with 0 in H2 by ring.
Qed.

Lemma fleb_Qcle (x y : Qc) : fleb x y = true <-> x <= y.
Proof. qc_ops. unfold Qcle. apply Qle_bool_iff. Qed.

(** ** The sampled points in exact arithmetic *)

(** The value of [f] at the point placed from the drawn row [r], divided
    by [s], on a sampler centred at the origin. *)
Lemma quadratic_form_place_origin (a r : list Qc) (u s : Qc) :
  length r = length a -> Forall (fun ai => ai <> 0) a -> s <> 0 ->
  quadratic_form a
    (place (repeat 0 (length a)) a u (map (fun x => fdiv x s) r)) =
  sumsq r * (u * u / (s * s)) - 1.
Proof.
  intros Hlen Ha Hs. unfold quadratic_form, place, sumsq. qc_ops.
  f_equal. rewrite <- lsum_map_scale. f_equal.
  revert r Hlen. induction Ha as [|ai a Hai _ IH]; intros [|x r] Hlen;
    try discriminate; [reflexivity|].
  injection Hlen as Hlen. cbn [map length repeat map2]. f_equal.
  - unfold sq. qc_ops. now field.
  - now apply IH.
Qed.

Lemma quadratic_form_scale (a r : list Qc) (t : Qc) :
  quadratic_form a (map (fun x => t * x) r) =
  t * t * (quadratic_form a r + 1) - 1.
Proof.
  unfold quadratic_form. qc_ops.
  assert (E : map2 Qcdiv (map sq (map (fun x => t * x) r)) (map sq a) =
              map (fun y => y * (t * t)) (map2 Qcdiv (map sq r) (map sq a))).
  { revert a. induction r as [|x r IH]; intros [|ai a]; simpl; auto.
    f_equal; [|apply IH]. unfold sq, Qcdiv. qc_ops. ring. }
  pose proof (lsum_map_scale (fun y => y) (t * t)
                (map2 Qcdiv (map sq r) (map sq a))) as E2.
  cbv beta in E2. rewrite map_id in E2. rewrite E, E2. ring.
Qed.

Lemma lsum_zeros {A} (l : list A) : lsum (map (fun _ => 0) l) = 0.
Proof.
  induction l as [|x l IH]; simpl; [apply lsum_nil|].
  rewrite lsum_cons, IH. ring.
Qed.

Lemma quadratic_form_origin (a : list Qc) :
  quadratic_form a (repeat 0 (length a)) = - (1).
Proof.
  unfold quadratic_form. qc_ops.
  replace (map2 Qcdiv (map sq (repeat 0 (length a))) (map sq a))
    with (map (fun _ : Qc => 0) a).
  - rewrite lsum_zeros. ring.
  - induction a as [|ai a IH]; simpl; [reflexivity|].
    rewrite <- IH. f_equal. unfold sq, Qcdiv. qc_ops. ring.
Qed.

Lemma quadratic_form_endpoint (a : list Qc) (i : nat) :
  (i < length a)%nat -> Forall (fun ai => ai <> 0) a ->
  quadratic_form a (endpoint a i) = 0.
Proof.
  intros Hi Ha. unfold quadratic_form. qc_ops.
  replace (lsum (map2 Qcdiv (map sq (endpoint a i)) (map sq a))) with 1;
    [ring|].
  revert i Hi. induction Ha as [|ai a Hai Ha IH]; intros i Hi;
    [simpl in Hi; lia|].
  destruct i as [|i]; cbn [endpoint map map2]; rewrite lsum_cons.
  - replace (map2 Qcdiv (map sq (map (fun _ : Qc => 0) a)) (map sq a))
      with (map (fun _ : Qc => 0) a).
    + rewrite lsum_zeros. unfold sq. qc_ops. now field.
    + clear. induction a as [|aj a IH]; simpl; [reflexivity|].
      rewrite <- IH. f_equal. unfold sq, Qcdiv. qc_ops. ring.
  - rewrite <- IH by (simpl in Hi; lia). unfold sq, Qcdiv. qc_ops. ring.
Qed.

(** With the scale 0 a placed point is the centre. *)
Lemma place_zero_scale (m a d : list Qc) :
  length d = length m -> length a = length m -> place m a 0 d = m.
Proof.
  unfold place. qc_ops. revert a d.
  induction m as [|mi m IH]; intros [|ai a] [|x d] Hd Ha; try discriminate;
    [reflexivity|].
  injection Hd as Hd. injection Ha as Ha. cbn [map map2]. f_equal.
  - ring.
  - now apply IH.
Qed.

Close Scope Qc_scope.

(** * Properties *)

(** ** Construction *)

Section ConstructionClaims.

Context {F : Type} `{Scalar F}.

(** C9: construction fails, with the assertion failure that stands for the
    shape mismatch error, exactly when one of the two inputs is not of
    rank 1 or their shapes (for rank 1: their lengths) differ; it succeeds
    exactly in the remaining case; and on two vectors of equal length it
    stores both and sets [dims] to the common length. *)
Theorem init_fails_exactly_on_shape_mismatch (mu0 axes0 : tensor F) (c : bool) :
  (__init__ mu0 axes0 c = Err (AssertionError "") <->
   (rank mu0 <> 1 \/ rank axes0 <> 1 \/ shape mu0 <> shape axes0)) /\
  ((exists self, __init__ mu0 axes0 c = Ok self) <->
   (rank mu0 = 1 /\ rank axes0 = 1 /\ shape mu0 = shape axes0)) /\
  (forall v w : list F,
     __init__ (Vec v) (Vec w) c =
     if length v =? length w
     then Ok {| use_cuda := c; mu := Vec v; axes := Vec w; dims := length v |}
     else Err (AssertionError "")).
Proof.
  split; [|split].
  - unfold __init__, assert.
    destruct (rank mu0 =? rank axes0) eqn:E1;
      destruct (rank axes0 =? 1) eqn:E2; simpl;
      rewrite ?Nat.eqb_eq, ?Nat.eqb_neq in *.
    + destruct (shape_eqb (shape mu0) (shape axes0)) eqn:E3; simpl.
      * apply shape_eqb_eq in E3. split; [discriminate|].
        intros [Hc|[Hc|Hc]]; [lia | lia | contradiction].
      * split; [|reflexivity]. intros _. right. right.
        intros Hs. apply shape_eqb_eq in Hs. congruence.
    + split; auto.
    + split; [|reflexivity]. intros _. left. lia.
    + split; auto.
  - unfold __init__, assert.
    destruct (rank mu0 =? rank axes0) eqn:E1;
      destruct (rank axes0 =? 1) eqn:E2; simpl;
      rewrite ?Nat.eqb_eq, ?Nat.eqb_neq in *.
    + destruct (shape_eqb (shape mu0) (shape axes0)) eqn:E3; simpl.
      * apply shape_eqb_eq in E3. split; [intros _; repeat split; auto; lia|].
        intros _. eauto.
      * split; [intros [s Hs]; discriminate|].
        intros (_ & _ & Hs). apply shape_eqb_eq in Hs. congruence.
    + split; [intros [s Hs]; discriminate | intros (_ & Hc & _); contradiction].
    + split; [intros [s Hs]; discriminate | intros (Hc & Hc' & _); lia].
    + split; [intros [s Hs]; discriminate | intros (_ & Hc & _); contradiction].
  - intros v w. apply init_vec.
Qed.

End ConstructionClaims.

(** ** The evaluator and the sampler, for every element arithmetic *)

Section StructuralClaims.

Context {F G : Type} `{Generator F G}.

(** C4: step 1 of [sample] draws [num_points * dims] standard-normal
    values, arranges them in order as [num_points] rows of [dims] entries,
    and returns the matrix in which every entry of a row is divided by the
    sum of the squared entries of that row. *)
Theorem directions_divide_by_sum_of_squares
    (self : EllipsoidSampler F) (num_points : nat) (g : G) :
  let z := fst (randn_rows num_points (dims self) g) in
  length z = num_points /\
  Forall (fun r => length r = dims self) z /\
  concat z = fst (draws (num_points * dims self) g) /\
  z_on_unit_sphere self num_points g =
  (Ok (Mat (dims self)
         (map (fun r => map (fun x => fdiv x (lsum (map (fun y => fmul y y) r))) r) z)),
   snd (draws (num_points * dims self) g)).
Proof.
  intros z. destruct (randn_rows_spec num_points (dims self) g) as (Hb & Hr & Hc & Hs).
  repeat split; auto.
  rewrite z_on_unit_sphere_eq, Hs. reflexivity.
Qed.

(** C6: on a sampler built from the centre [m] and the axes [a], a call of
    [sample] makes, after the [num_points * dims] normal draws of the
    direction step, one uniform draw [u], which lies in [0, 1), and returns
    the matrix whose rows are, entry by entry, [(d * u) * a + m] for the
    rows [d] of the direction matrix, every row with the same [u]. *)
Theorem sample_shares_one_scale
    (m a : list F) (c : bool) (self : EllipsoidSampler F)
    (num_points : nat) (g : G) :
  __init__ (Vec m) (Vec a) c = Ok self ->
  exists (dirs : list (list F)) (g1 : G),
    z_on_unit_sphere self num_points g = (Ok (Mat (length m) dirs), g1) /\
    g1 = snd (draws (num_points * length m) g) /\
    length dirs = num_points /\
    let u := fst (next_uniform g1) in
    fleb fzero u = true /\ fleb fone u = false /\
    sample self num_points g =
    (Ok (Mat (length m)
           (map (fun d => map2 fadd (map2 fmul (map (fun x => fmul x u) d) a) m)
                dirs)),
     snd (next_uniform g1)).
Proof.
  intros Hinit. apply init_vec_ok in Hinit as [Hlen ->].
  exists (map direction (fst (randn_rows num_points (length m) g))),
         (snd (randn_rows num_points (length m) g)).
  split; [apply z_on_unit_sphere_eq|].
  split; [apply randn_rows_spec|].
  split; [rewrite length_map; apply randn_rows_spec|].
  cbv zeta. split; [apply next_uniform_range|].
  split; [apply next_uniform_range|].
  exact (sample_eq m a c num_points g Hlen).
Qed.

(** C8, as the code has it: on a sampler with axes [a], [f] rejects every
    input that is not of rank 2 by its assertion, and a matrix with rows of
    [k] entries by the failed broadcast of the division when [k] differs
    from [length a] and neither is 1; when [k] is [length a], or one of the
    two is 1, the division broadcasts and [f] returns one value per row. *)
Theorem f_rejects_what_does_not_broadcast
    (m a : list F) (c : bool) (self : EllipsoidSampler F) :
  __init__ (Vec m) (Vec a) c = Ok self ->
  (forall x : tensor F, rank x <> 2 ->
     f self x = Err (AssertionError "Not implemented for shape != 2D")) /\
  (forall (k : nat) (rows : list (list F)),
     k <> length a -> k <> 1 -> length a <> 1 ->
     f self (Mat k rows) = Err RuntimeError) /\
  (forall (k : nat) (rows : list (list F)),
     k = length a \/ k = 1 \/ length a = 1 ->
     exists v, f self (Mat k rows) = Ok (Vec v) /\ length v = length rows).
Proof.
  intros Hinit. apply init_vec_ok in Hinit as [Hlen ->].
  split; [|split].
  - intros x Hx. now apply f_rank.
  - intros k rows Hk Hk1 Ha1. unfold f, rank, assert. cbn.
    replace (if c then cuda (Mat k rows) else Mat k rows)
      with (Mat k rows) by now destruct c.
    unfold tdiv, pow2. cbn [tmap binop]. rewrite length_map.
    now rewrite bcast_dim_clash.
  - intros k rows Hk. unfold f, rank, assert. cbn.
    replace (if c then cuda (Mat k rows) else Mat k rows)
      with (Mat k rows) by now destruct c.
    unfold tdiv, pow2. cbn [tmap binop]. rewrite length_map.
    assert (Hb : exists k', bcast_dim k (length a) = Ok k').
    { destruct Hk as [->|[->|Ha]].
      - rewrite bcast_dim_same. eauto.
      - rewrite bcast_dim_one_l. eauto.
      - rewrite Ha, bcast_dim_one_r. eauto. }
    destruct Hb as [k' ->]. cbn.
    eexists. split; [reflexivity|]. now rewrite !length_map.
Qed.

End StructuralClaims.

(** ** The evaluator on exact rationals *)

(** C7, as the code has it: on a sampler built from the axes [a], [f]
    applied to a matrix of [length rows] rows of [dims] entries returns a
    vector with one value per row, a function of the rows and of the axes
    alone: in every element arithmetic, the sum over the coordinates of
    [x*x / (axis*axis)], every square taken before the division, minus 1;
    and in exact arithmetic with positive axes that value is the sum over
    the coordinates of [(x / axis)] squared, minus 1. *)
Theorem f_computes_quotient_of_squares :
  (forall (F : Type) (S : Scalar F) (m a : list F) (c : bool)
          (self : EllipsoidSampler F) (rows : list (list F)),
     __init__ (Vec m) (Vec a) c = Ok self ->
     Forall (fun r => length r = dims self) rows ->
     f self (Mat (dims self) rows) =
       Ok (Vec (map (fun r =>
                  fsub (lsum (map2 (fun x ai => fdiv (fmul x x) (fmul ai ai))
                                   r a))
                       fone)
                rows)) /\
     length (map (fun r =>
                  fsub (lsum (map2 (fun x ai => fdiv (fmul x x) (fmul ai ai))
                                   r a))
                       fone)
                rows) = length rows) /\
  (forall (m a : list Qc) (c : bool) (self : EllipsoidSampler Qc)
          (rows : list (list Qc)),
     __init__ (Vec m) (Vec a) c = Ok self ->
     Forall (fun ai => Qclt (Q2Qc 0) ai) a ->
     Forall (fun r => length r = dims self) rows ->
     f self (Mat (dims self) rows) = Ok (Vec (map (implicit_value a) rows)) /\
     length (map (implicit_value a) rows) = length rows).
Proof.
  split.
  - intros F S m a c self rows Hinit Hrows.
    apply init_vec_ok in Hinit as [Hlen ->].
    cbn [dims] in *. split; [|apply length_map].
    rewrite f_mat with (a := a); [|reflexivity|exact Hrows|now symmetry].
    do 2 f_equal. apply map_ext. intros r.
    unfold quadratic_form. now rewrite map2_map_map.
  - intros m a c self rows Hinit Hpos Hrows.
    apply init_vec_ok in Hinit as [Hlen ->].
    cbn [dims] in *. split; [|apply length_map].
    rewrite f_mat with (a := a); [|reflexivity|exact Hrows|now symmetry].
    do 2 f_equal. apply map_ext. intros r.
    now apply quadratic_form_implicit_value.
Qed.

(** C10: there are a centre and axes of equal length, one axis zero and
    one negative, on which construction succeeds. *)
Theorem init_accepts_nonpositive_axes :
  exists (m a : list Qc) (self : EllipsoidSampler Qc),
    length m = length a /\
    Exists (fun ai => ai = Q2Qc 0) a /\
    Exists (fun ai => Qclt ai (Q2Qc 0)) a /\
    __init__ (Vec m) (Vec a) true = Ok self.
Proof.
  exists [frac 0 1; frac 0 1], [frac 0 1; frac (-1) 1]. eexists.
  split; [reflexivity|]. split; [|split].
  - apply Exists_cons_hd. reflexivity.
  - apply Exists_cons_tl, Exists_cons_hd. reflexivity.
  - reflexivity.
Qed.

(** ** Where the code departs from its own description *)

(** C1, at a failing input: on the ellipse with centre (0, 0) and axes
    (2, 1), with the drawn row (1/4, 1/4) and the scale 1/2, [sample 1]
    returns the one-row matrix ((2, 1)), of the promised shape, on which
    [f] is 1, which is not at most 0: the returned point is outside. *)
Theorem sample_returns_outside_point :
  __init__ (Vec [frac 0 1; frac 0 1]) (Vec [frac 2 1; frac 1 1]) true =
    Ok ellipse21 /\
  fst (sample ellipse21 1 short_draw) = Ok (Mat 2 [[frac 2 1; frac 1 1]]) /\
  f ellipse21 (Mat 2 [[frac 2 1; frac 1 1]]) = Ok (Vec [frac 1 1]) /\
  fleb (frac 1 1) fzero = false.
Proof. repeat split; qc_eval. Qed.

(** C2, at a failing input: with the drawn rows (1/4, 1/4) and (1, 1) and
    the scale 1/2, [sample 2] on the same ellipse returns normally, with
    both rows, although only one of the two candidates has [f] at most
    0. *)
Theorem sample_passes_validation_with_outside_point :
  fst (sample ellipse21 2 mixed_draws) =
    Ok (Mat 2 [[frac 2 1; frac 1 1]; [frac 1 2; frac 1 4]]) /\
  f ellipse21 (Mat 2 [[frac 2 1; frac 1 1]; [frac 1 2; frac 1 4]]) =
    Ok (Vec [frac 1 1; frac (-7) 8]) /\
  inside_count ellipse21 (Mat 2 [[frac 2 1; frac 1 1]; [frac 1 2; frac 1 4]]) =
    Ok 1 /\
  1 <> 2.
Proof. split; [|split; [|split]]; [qc_eval .. | discriminate]. Qed.

(** C3, at a failing input: on the unit sphere with centre (1, 1, 1), [f]
    applied to the one-row batch holding the centre returns 2, not -1. *)
Theorem f_at_centre_is_not_minus_one :
  __init__ (Vec [frac 1 1; frac 1 1; frac 1 1])
           (Vec [frac 1 1; frac 1 1; frac 1 1]) true = Ok sphere111 /\
  f sphere111 (Mat 3 [[frac 1 1; frac 1 1; frac 1 1]]) = Ok (Vec [frac 2 1]) /\
  frac 2 1 <> frac (-1) 1.
Proof. split; [|split]; [qc_eval .. | qc_neq]. Qed.

(** C5, at a failing input: for the drawn row (1, 1), which is not zero,
    step 1 of [sample] yields the direction (1/2, 1/2), whose squared
    length is 1/2 and not 1. *)
Theorem direction_is_off_the_unit_sphere :
  fst (z_on_unit_sphere ellipse21 1 diagonal_draw) =
    Ok (Mat 2 [[frac 1 2; frac 1 2]]) /\
  sumsq [frac 1 2; frac 1 2] = frac 1 2 /\
  frac 1 2 <> frac 1 1.
Proof. split; [|split]; [qc_eval .. | qc_neq]. Qed.

(** ** Counterexamples and witnesses *)

(** C8 as stated fails: the axes have length 2, the input matrix has rows
    of 1 entry, and [f] returns a value instead of failing. *)
Lemma f_accepts_one_column_matrix :
  dims ellipse21 = 2 /\
  axes ellipse21 = Vec [frac 2 1; frac 1 1] /\
  shape (Mat 1 [[frac 1 1]]) = [1; 1] /\
  f ellipse21 (Mat 1 [[frac 1 1]]) = Ok (Vec [frac 1 4]).
Proof. repeat split; qc_eval. Qed.

Lemma sample_shares_one_scale_witness :
  exists (dirs : list (list Qc)) (g1 : script),
    z_on_unit_sphere ellipse21 2 mixed_draws = (Ok (Mat 2 dirs), g1) /\
    g1 = snd (draws (2 * 2) mixed_draws) /\
    length dirs = 2 /\
    let u := fst (next_uniform g1) in
    fleb fzero u = true /\ fleb fone u = false /\
    sample ellipse21 2 mixed_draws =
    (Ok (Mat 2
           (map (fun d => map2 fadd (map2 fmul (map (fun x => fmul x u) d)
                                        [frac 2 1; frac 1 1])
                               [frac 0 1; frac 0 1])
                dirs)),
     snd (next_uniform g1)).
Proof.
  exact (sample_shares_one_scale [frac 0 1; frac 0 1] [frac 2 1; frac 1 1]
           true ellipse21 2 mixed_draws ellipse21_built).
Defined.

Lemma f_rejects_what_does_not_broadcast_witness :
  (forall x : tensor Qc, rank x <> 2 ->
     f ellipse21 x = Err (AssertionError "Not implemented for shape != 2D")) /\
  (forall (k : nat) (rows : list (list Qc)),
     k <> 2 -> k <> 1 -> 2 <> 1 ->
     f ellipse21 (Mat k rows) = Err RuntimeError) /\
  (forall (k : nat) (rows : list (list Qc)),
     k = 2 \/ k = 1 \/ 2 = 1 ->
     exists v, f ellipse21 (Mat k rows) = Ok (Vec v) /\ length v = length rows).
Proof.
  exact (f_rejects_what_does_not_broadcast [frac 0 1; frac 0 1]
           [frac 2 1; frac 1 1] true ellipse21 ellipse21_built).
Defined.

Lemma f_computes_quotient_of_squares_witness :
  (f ellipse21 (Mat 2 [[frac 2 1; frac 0 1]; [frac 0 1; frac 0 1]]) =
     Ok (Vec (map (fun r =>
                fsub (lsum (map2 (fun x ai => fdiv (fmul x x) (fmul ai ai))
                                 r [frac 2 1; frac 1 1]))
                     fone)
              [[frac 2 1; frac 0 1]; [frac 0 1; frac 0 1]])) /\
   length (map (fun r =>
                fsub (lsum (map2 (fun x ai => fdiv (fmul x x) (fmul ai ai))
                                 r [frac 2 1; frac 1 1]))
                     fone)
              [[frac 2 1; frac 0 1]; [frac 0 1; frac 0 1]]) = 2) /\
  (f ellipse21 (Mat 2 [[frac 2 1; frac 0 1]; [frac 0 1; frac 0 1]]) =
     Ok (Vec (map (implicit_value [frac 2 1; frac 1 1])
                  [[frac 2 1; frac 0 1]; [frac 0 1; frac 0 1]])) /\
   length (map (implicit_value [frac 2 1; frac 1 1])
               [[frac 2 1; frac 0 1]; [frac 0 1; frac 0 1]]) = 2).
Proof.
  split.
  - apply (proj1 f_computes_quotient_of_squares Qc Qc_Scalar
             [frac 0 1; frac 0 1] [frac 2 1; frac 1 1] true ellipse21
             [[frac 2 1; frac 0 1]; [frac 0 1; frac 0 1]]).
    + reflexivity.
    + repeat constructor.
  - apply (proj2 f_computes_quotient_of_squares
             [frac 0 1; frac 0 1] [frac 2 1; frac 1 1] true ellipse21
             [[frac 2 1; frac 0 1]; [frac 0 1; frac 0 1]]).
    + reflexivity.
    + repeat constructor.
    + repeat constructor.
Defined.

(** C7 as stated fails on single-precision tensors: the sampler with the
    positive axis [2^70] is built, and on the one-row batch holding
    [2^70] both squares overflow to infinity, so [f] returns NaN, while the
    sum of [(x / axis)] squared minus 1 is 0 in the same arithmetic. *)
Lemma f_is_nan_where_the_ratio_is_one :
  __init__ (Vec [S754_zero false]) (Vec [Binary32.two_pow 70]) true =
    Ok wide_interval /\
  SFltb (S754_zero false) (Binary32.two_pow 70) = true /\
  f wide_interval (Mat 1 [[Binary32.two_pow 70]]) = Ok (Vec [S754_nan]) /\
  implicit_value_in [Binary32.two_pow 70] [Binary32.two_pow 70] =
    S754_zero false /\
  S754_nan <> S754_zero false.
Proof.
  split; [|split; [|split; [|split]]]; try (vm_compute; reflexivity).
  discriminate.
Qed.

(** * Further properties of the code *)

Section StructuralExtras.

Context {F G : Type} `{Generator F G}.

(** X1: on every sampler that [__init__] returns, [sample] does not raise:
    it returns a matrix of [num_points] rows of [dims] entries, and [f]
    accepts that matrix and returns one value per row. *)
Theorem sample_returns_full_batch
    (mu0 axes0 : tensor F) (c : bool) (self : EllipsoidSampler F)
    (num_points : nat) (g : G) :
  __init__ mu0 axes0 c = Ok self ->
  exists rows v,
    fst (sample self num_points g) = Ok (Mat (dims self) rows) /\
    length rows = num_points /\
    Forall (fun r => length r = dims self) rows /\
    f self (Mat (dims self) rows) = Ok (Vec v) /\
    length v = num_points.
Proof.
  intros Hinit. destruct (init_ok_inv _ _ _ _ Hinit) as (m & a & -> & -> & Hlen).
  apply init_vec_ok in Hinit as [_ ->].
  destruct (randn_rows_spec num_points (length m) g) as (Hb & Hrect & _ & _).
  rewrite (sample_eq m a c num_points g Hlen). cbn [fst dims].
  set (z := fst (randn_rows num_points (length m) g)) in *.
  set (u := fst (next_uniform (snd (randn_rows num_points (length m) g)))).
  assert (Hrows : rect (length m) (map (place m a u) (map direction z))).
  { unfold rect. rewrite !Forall_map. eapply Forall_impl; [|exact Hrect].
    intros r Hr. apply place_length; auto. now rewrite direction_length. }
  eexists. eexists. split; [reflexivity|].
  split; [now rewrite !length_map|]. split; [exact Hrows|].
  split; [apply f_mat with (a := a); auto|].
  now rewrite !length_map.
Qed.

(** X2: with [num_points = 0], [sample] returns the empty matrix with
    [dims] columns, makes no normal draw and still makes its one uniform
    draw. *)
Theorem sample_of_empty_batch
    (mu0 axes0 : tensor F) (c : bool) (self : EllipsoidSampler F) (g : G) :
  __init__ mu0 axes0 c = Ok self ->
  sample self 0 g = (Ok (Mat (dims self) []), snd (next_uniform g)).
Proof.
  intros Hinit. destruct (init_ok_inv _ _ _ _ Hinit) as (m & a & -> & -> & Hlen).
  apply init_vec_ok in Hinit as [_ ->].
  exact (sample_eq m a c 0 g Hlen).
Qed.

(** X3: [f] does not reject a matrix with a single column when the sampler
    has several axes: the division broadcasts the column, and the value of
    a row [(x)] is the sum over all axes of [x*x / (axis*axis)], minus
    1. *)
Theorem f_broadcasts_single_column
    (m a : list F) (c : bool) (self : EllipsoidSampler F) (xs : list F) :
  __init__ (Vec m) (Vec a) c = Ok self ->
  f self (Mat 1 (map (fun x => [x]) xs)) =
  Ok (Vec (map (fun x =>
             fsub (lsum (map (fun ai => fdiv (fmul x x) (fmul ai ai)) a)) fone)
           xs)).
Proof.
  intros Hinit. apply init_vec_ok in Hinit as [Hlen ->].
  unfold f, rank, assert. cbn.
  replace (if c then cuda (Mat 1 (map (fun x => [x]) xs))
           else Mat 1 (map (fun x => [x]) xs))
    with (Mat 1 (map (fun x => [x]) xs)) by now destruct c.
  unfold tdiv, pow2. cbn [tmap binop]. rewrite bcast_dim_one_l. cbn.
  do 2 f_equal. rewrite !map_map. apply map_ext. intros x. cbn.
  rewrite expand_id by reflexivity.
  now rewrite map2_repeat_l, map_map.
Qed.

(** X4: a sampler with a single axis [a0] accepts a matrix of any width:
    the division broadcasts the axis, and the value of a row is the sum
    over its entries of [x*x / (a0*a0)], minus 1. *)
Theorem f_broadcasts_single_axis
    (m0 a0 : F) (c : bool) (self : EllipsoidSampler F)
    (k : nat) (rows : list (list F)) :
  __init__ (Vec [m0]) (Vec [a0]) c = Ok self ->
  Forall (fun r => length r = k) rows ->
  f self (Mat k rows) =
  Ok (Vec (map (fun r =>
             fsub (lsum (map (fun x => fdiv (fmul x x) (fmul a0 a0)) r)) fone)
           rows)).
Proof.
  intros Hinit Hrows. apply init_vec_ok in Hinit as [Hlen ->].
  unfold f, rank, assert. cbn.
  replace (if c then cuda (Mat k rows) else Mat k rows)
    with (Mat k rows) by now destruct c.
  unfold tdiv, pow2. cbn [tmap map].
  rewrite binop_mat_one.
  - cbn. do 2 f_equal. rewrite !map_map. apply map_ext. intros r.
    now rewrite map_map.
  - apply rect_map; auto. intros r Hr. now rewrite length_map.
Qed.

End StructuralExtras.

(** ** The evaluator and the sampler on exact rationals *)

Section ExactExtras.

Context {G : Type} {HG : Generator Qc G}.

(** X5: for every drawn row that is not zero, the row that step 1 of
    [sample] makes of it has squared length [1 / sumsq r]: the inverse of
    the squared length of the drawn row. *)
Theorem directions_have_inverse_square_length
    (self : EllipsoidSampler Qc) (num_points : nat) (g : G) :
  Forall (fun r => sumsq r <> Q2Qc 0)
         (fst (randn_rows num_points (dims self) g)) ->
  exists dirs,
    fst (z_on_unit_sphere self num_points g) = Ok (Mat (dims self) dirs) /\
    Forall2 (fun r d => sumsq d = Qcdiv (Q2Qc 1) (sumsq r))
            (fst (randn_rows num_points (dims self) g)) dirs.
Proof.
  intros Hnz. rewrite z_on_unit_sphere_eq. cbn [fst].
  eexists. split; [reflexivity|].
  induction Hnz as [|r z Hr _ IH]; simpl; constructor; auto.
  now apply direction_sumsq.
Qed.

(** X6: on a sampler centred at the origin with axes that are not zero,
    and for drawn rows that are not zero, [f] at the point sampled from
    the row [r] with the scale [u] is [u*u / sumsq r - 1], whatever the
    axes; the mask [idx] of [sample] therefore holds, per row, whether
    [u*u <= sumsq r]. *)
Theorem f_of_origin_sample
    (a : list Qc) (c : bool) (self : EllipsoidSampler Qc)
    (num_points : nat) (g : G) :
  __init__ (Vec (repeat (Q2Qc 0) (length a))) (Vec a) c = Ok self ->
  Forall (fun ai => ai <> Q2Qc 0) a ->
  Forall (fun r => sumsq r <> Q2Qc 0)
         (fst (randn_rows num_points (length a) g)) ->
  exists rows,
    fst (sample self num_points g) = Ok (Mat (length a) rows) /\
    f self (Mat (length a) rows) =
      Ok (Vec (map (fun r =>
                 Qcminus
                   (Qcdiv (Qcmult
                      (fst (next_uniform (snd (randn_rows num_points (length a) g))))
                      (fst (next_uniform (snd (randn_rows num_points (length a) g)))))
                      (sumsq r))
                   (Q2Qc 1))
               (fst (randn_rows num_points (length a) g)))) /\
    (fx <- f self (Mat (length a) rows) ;; Ok (le_scalar fx fzero))%result =
      Ok (Vec (map (fun r =>
                 fleb (Qcmult
                      (fst (next_uniform (snd (randn_rows num_points (length a) g))))
                      (fst (next_uniform (snd (randn_rows num_points (length a) g)))))
                      (sumsq r))
               (fst (randn_rows num_points (length a) g)))).
Proof.
  intros Hinit Ha Hnz. apply init_vec_ok in Hinit as [Hlen ->].
  rewrite (sample_eq _ a c num_points g Hlen). cbn [fst].
  rewrite repeat_length in *.
  destruct (randn_rows_spec num_points (length a) g) as (_ & Hrect & _ & _).
  set (z := fst (randn_rows num_points (length a) g)) in *.
  set (u := fst (next_uniform (snd (randn_rows num_points (length a) g)))).
  set (m := repeat (Q2Qc 0) (length a)).
  assert (Hrows : rect (length a) (map (place m a u) (map direction z))).
  { unfold rect. rewrite !Forall_map. eapply Forall_impl; [|exact Hrect].
    intros r Hr. apply place_length; auto.
    - apply repeat_length.
    - now rewrite direction_length. }
  assert (Hval : map (quadratic_form a) (map (place m a u) (map direction z)) =
                 map (fun r => Qcminus (Qcdiv (Qcmult u u) (sumsq r)) (Q2Qc 1)) z).
  { rewrite !map_map.
    apply map_ext_Forall
      with (P := fun r => length r = length a /\ sumsq r <> Q2Qc 0);
      [now apply Forall_and|].
    intros r [Hr Hs]. unfold direction, m.
    rewrite quadratic_form_place_origin by assumption.
    now field. }
  eexists. split; [reflexivity|].
  rewrite f_mat with (a := a); [|reflexivity|exact Hrows|reflexivity].
  rewrite Hval. split; [reflexivity|].
  cbn [rbind le_scalar tmap]. do 2 f_equal. rewrite map_map.
  apply map_ext_Forall with (P := fun r => sumsq r <> Q2Qc 0); [exact Hnz|].
  intros r Hs. apply eq_true_iff_eq. rewrite !fleb_Qcle.
  apply ratio_minus_one_le. now apply sumsq_pos.
Qed.

End ExactExtras.

(** X7: [f] is homogeneous of degree two around -1: on a sampler with
    axes that are not zero, scaling every entry of the batch by [t] maps
    each value [y] of [f] to [t*t*(y + 1) - 1]. *)
Theorem f_is_homogeneous
    (m a : list Qc) (c : bool) (self : EllipsoidSampler Qc)
    (t : Qc) (rows : list (list Qc)) :
  __init__ (Vec m) (Vec a) c = Ok self ->
  Forall (fun ai => ai <> Q2Qc 0) a ->
  Forall (fun r => length r = length a) rows ->
  exists v,
    f self (Mat (length a) rows) = Ok (Vec v) /\
    length v = length rows /\
    f self (Mat (length a) (map (map (fun x => Qcmult t x)) rows)) =
      Ok (Vec (map (fun y =>
                 Qcminus (Qcmult (Qcmult t t) (Qcplus y (Q2Qc 1))) (Q2Qc 1))
               v)).
Proof.
  intros Hinit _ Hrows. apply init_vec_ok in Hinit as [Hlen ->].
  exists (map (quadratic_form a) rows).
  split; [apply f_mat with (a := a); auto|].
  split; [apply length_map|].
  rewrite f_mat with (a := a); [|reflexivity| |reflexivity].
  - do 2 f_equal. rewrite !map_map. apply map_ext. intros r.
    apply quadratic_form_scale.
  - apply rect_map; auto. intros r Hr. now rewrite length_map.
Qed.

(** X8: the ellipsoid that [f] tests is centred at the origin, whatever
    the centre of the sampler: on a sampler with axes that are not zero,
    [f] is -1 at every row of zeros. *)
Theorem f_at_origin
    (m a : list Qc) (c : bool) (self : EllipsoidSampler Qc) (b : nat) :
  __init__ (Vec m) (Vec a) c = Ok self ->
  Forall (fun ai => ai <> Q2Qc 0) a ->
  f self (Mat (length a) (repeat (repeat (Q2Qc 0) (length a)) b)) =
  Ok (Vec (repeat (Qcopp (Q2Qc 1)) b)).
Proof.
  intros Hinit _. apply init_vec_ok in Hinit as [Hlen ->].
  rewrite f_mat with (a := a); [|reflexivity| |reflexivity].
  - now rewrite map_repeat, quadratic_form_origin.
  - unfold rect. apply Forall_forall. intros r Hr.
    apply repeat_spec in Hr. subst r. apply repeat_length.
Qed.

(** X9: on a sampler with axes that are not zero, [f] is 0 at the end
    point of every axis: the point with the axis length in one coordinate
    and zero in the others, taken from the origin and not from the centre
    of the sampler. *)
Theorem f_at_axis_endpoint
    (m a : list Qc) (c : bool) (self : EllipsoidSampler Qc) (i : nat) :
  __init__ (Vec m) (Vec a) c = Ok self ->
  Forall (fun ai => ai <> Q2Qc 0) a ->
  i < length a ->
  f self (Mat (length a) [endpoint a i]) = Ok (Vec [Q2Qc 0]).
Proof.
  intros Hinit Ha Hi. apply init_vec_ok in Hinit as [Hlen ->].
  assert (Hend : forall (l : list Qc) j, length (endpoint l j) = length l).
  { induction l as [|x l IH]; intros [|j]; simpl; auto.
    now rewrite length_map. }
  rewrite f_mat with (a := a); [|reflexivity| |reflexivity].
  - cbn [map]. now rewrite quadratic_form_endpoint.
  - constructor; [apply Hend | constructor].
Qed.

Section ZeroScale.

Context {G : Type} {HG : Generator Qc G}.

(** X10: the scale is drawn from [0, 1) and can be 0; then, for drawn rows
    that are not zero, every row that [sample] returns is the centre. *)
Theorem sample_with_zero_scale
    (m a : list Qc) (c : bool) (self : EllipsoidSampler Qc)
    (num_points : nat) (g : G) :
  __init__ (Vec m) (Vec a) c = Ok self ->
  Forall (fun r => sumsq r <> Q2Qc 0)
         (fst (randn_rows num_points (length m) g)) ->
  fst (next_uniform (snd (randn_rows num_points (length m) g))) = Q2Qc 0 ->
  fst (sample self num_points g) = Ok (Mat (length m) (repeat m num_points)).
Proof.
  intros Hinit _ Hu. apply init_vec_ok in Hinit as [Hlen ->].
  rewrite (sample_eq m a c num_points g Hlen). cbn [fst]. rewrite Hu.
  destruct (randn_rows_spec num_points (length m) g) as (Hb & Hrect & _ & _).
  set (z := fst (randn_rows num_points (length m) g)) in *.
  do 2 f_equal. rewrite map_map.
  transitivity (map (fun _ : list Qc => m) z);
    [|now rewrite map_const, Hb].
  apply map_ext_Forall with (P := fun r => length r = length m); [exact Hrect|].
  intros r Hr. apply place_zero_scale; [|now symmetry].
  now rewrite direction_length.
Qed.

End ZeroScale.

(** ** Witnesses of the further properties *)

Lemma sample_returns_full_batch_witness :
  exists rows v,
    fst (sample ellipse21 2 mixed_draws) = Ok (Mat 2 rows) /\
    length rows = 2 /\
    Forall (fun r => length r = 2) rows /\
    f ellipse21 (Mat 2 rows) = Ok (Vec v) /\
    length v = 2.
Proof.
  exact (sample_returns_full_batch
           (Vec [frac 0 1; frac 0 1]) (Vec [frac 2 1; frac 1 1]) true
           ellipse21 2 mixed_draws ellipse21_built).
Defined.

Lemma sample_of_empty_batch_witness :
  sample ellipse21 0 mixed_draws =
  (Ok (Mat 2 []), snd (next_uniform mixed_draws)).
Proof.
  exact (sample_of_empty_batch
           (Vec [frac 0 1; frac 0 1]) (Vec [frac 2 1; frac 1 1]) true
           ellipse21 mixed_draws ellipse21_built).
Defined.

Lemma f_broadcasts_single_column_witness :
  f ellipse21 (Mat 1 (map (fun x => [x]) [frac 1 1; frac 2 1])) =
  Ok (Vec (map (fun x =>
             fsub (lsum (map (fun ai => fdiv (fmul x x) (fmul ai ai))
                             [frac 2 1; frac 1 1])) fone)
           [frac 1 1; frac 2 1])).
Proof.
  exact (f_broadcasts_single_column [frac 0 1; frac 0 1] [frac 2 1; frac 1 1]
           true ellipse21 [frac 1 1; frac 2 1] ellipse21_built).
Defined.

Lemma f_broadcasts_single_axis_witness :
  f interval2 (Mat 3 [[frac 2 1; frac 2 1; frac 2 1]]) =
  Ok (Vec (map (fun r =>
             fsub (lsum (map (fun x => fdiv (fmul x x)
                                          (fmul (frac 2 1) (frac 2 1))) r))
                  fone)
           [[frac 2 1; frac 2 1; frac 2 1]])).
Proof.
  apply (f_broadcasts_single_axis (frac 0 1) (frac 2 1) true interval2 3
           [[frac 2 1; frac 2 1; frac 2 1]]).
  - reflexivity.
  - repeat constructor.
Defined.

Lemma directions_have_inverse_square_length_witness :
  exists dirs,
    fst (z_on_unit_sphere ellipse21 1 diagonal_draw) = Ok (Mat 2 dirs) /\
    Forall2 (fun r d => sumsq d = Qcdiv (Q2Qc 1) (sumsq r))
            (fst (randn_rows 1 2 diagonal_draw)) dirs.
Proof.
  apply (directions_have_inverse_square_length ellipse21 1 diagonal_draw).
  repeat constructor. qc_neq.
Defined.

Lemma f_of_origin_sample_witness :
  exists rows,
    fst (sample ellipse21 2 mixed_draws) = Ok (Mat 2 rows) /\
    f ellipse21 (Mat 2 rows) =
      Ok (Vec (map (fun r =>
                 Qcminus
                   (Qcdiv (Qcmult
                      (fst (next_uniform (snd (randn_rows 2 2 mixed_draws))))
                      (fst (next_uniform (snd (randn_rows 2 2 mixed_draws)))))
                      (sumsq r))
                   (Q2Qc 1))
               (fst (randn_rows 2 2 mixed_draws)))) /\
    (fx <- f ellipse21 (Mat 2 rows) ;; Ok (le_scalar fx fzero))%result =
      Ok (Vec (map (fun r =>
                 fleb (Qcmult
                      (fst (next_uniform (snd (randn_rows 2 2 mixed_draws))))
                      (fst (next_uniform (snd (randn_rows 2 2 mixed_draws)))))
                      (sumsq r))
               (fst (randn_rows 2 2 mixed_draws)))).
Proof.
  apply (f_of_origin_sample [frac 2 1; frac 1 1] true ellipse21 2 mixed_draws).
  - reflexivity.
  - repeat constructor; qc_neq.
  - repeat constructor; qc_neq.
Defined.

Lemma f_is_homogeneous_witness :
  exists v,
    f ellipse21 (Mat 2 [[frac 1 1; frac 1 1]]) = Ok (Vec v) /\
    length v = 1 /\
    f ellipse21 (Mat 2 (map (map (fun x => Qcmult (frac 2 1) x))
                            [[frac 1 1; frac 1 1]])) =
      Ok (Vec (map (fun y =>
                 Qcminus (Qcmult (Qcmult (frac 2 1) (frac 2 1))
                                 (Qcplus y (Q2Qc 1))) (Q2Qc 1))
               v)).
Proof.
  apply (f_is_homogeneous [frac 0 1; frac 0 1] [frac 2 1; frac 1 1] true
           ellipse21 (frac 2 1) [[frac 1 1; frac 1 1]]).
  - reflexivity.
  - repeat constructor; qc_neq.
  - repeat constructor.
Defined.

Lemma f_at_origin_witness :
  f sphere111 (Mat 3 (repeat (repeat (Q2Qc 0) 3) 2)) =
  Ok (Vec (repeat (Qcopp (Q2Qc 1)) 2)).
Proof.
  apply (f_at_origin [frac 1 1; frac 1 1; frac 1 1]
           [frac 1 1; frac 1 1; frac 1 1] true sphere111 2).
  - reflexivity.
  - repeat constructor; qc_neq.
Defined.

Lemma f_at_axis_endpoint_witness :
  f ellipse21 (Mat 2 [endpoint [frac 2 1; frac 1 1] 0]) = Ok (Vec [Q2Qc 0]).
Proof.
  apply (f_at_axis_endpoint [frac 0 1; frac 0 1] [frac 2 1; frac 1 1] true
           ellipse21 0).
  - reflexivity.
  - repeat constructor; qc_neq.
  - simpl. lia.
Defined.

Lemma sample_with_zero_scale_witness :
  fst (sample ellipse21 1 still_draw) =
  Ok (Mat 2 (repeat [frac 0 1; frac 0 1] 1)).
Proof.
  apply (sample_with_zero_scale [frac 0 1; frac 0 1] [frac 2 1; frac 1 1] true
           ellipse21 1 still_draw).
  - reflexivity.
  - repeat constructor; qc_neq.
  - apply Qc_is_canon. reflexivity.
Defined.
